(** * Gradient image emitter (src/main.cpp): a shallow embedding and its
      verification.

    The program writes a 256x256 plain-text PPM image to [std::cout] and
    progress text to [std::clog].  Its arithmetic is IEEE-754 binary64
    ([double]) and 32-bit [int]; its effects are writes to two streams.

    - [Double]: binary64 on top of the Standard Library's [SpecFloat].
    - [Io]: the stream events, the world and the program monad.
    - [Text]: decimal rendering of an [int] and the splitting of a stream
      into lines.
    - [main] and the functions it is made of, then the vocabulary of the
      specification.
    - the lemmas on the trace of [main], the two streams and the binary64
      values, and the theorems of the specification. *)

From Stdlib Require Import ZArith List String Ascii Bool Lia.
From Stdlib Require Import SpecFloat DecimalString.
Import ListNotations.

Local Open Scope string_scope.
Local Open Scope list_scope.
Local Open Scope Z_scope.

(* ------------------------------------------------------------------ *)
(** ** The machine integers and doubles of the program *)

(** [int] is a 32-bit two's complement integer.  The [int] values of the
    program (loop counters and dimensions, 0 to 256) stay far from its
    bounds: their arithmetic is that of [Z]. *)
Definition INT_MIN : Z := - 2 ^ 31.
Definition INT_MAX : Z := 2 ^ 31 - 1.
Definition in_int (n : Z) : bool := (INT_MIN <=? n) && (n <=? INT_MAX).

Module Double.

(** binary64: 53 bits of precision, exponents up to 1024. *)
Definition prec : Z := 53.
Definition emax : Z := 1024.

Definition double : Type := spec_float.

(** [double(n)] for an [int] [n], and the implicit conversion of an [int]
    operand of a [double] operation: rounding to nearest even (exact for
    every 32-bit integer). *)
Definition of_int (n : Z) : double := binary_normalize prec emax n 0 false.

Definition div (x y : double) : double := SFdiv prec emax x y.
Definition mul (x y : double) : double := SFmul prec emax x y.
Definition leb (x y : double) : bool := SFleb x y.
Definition eqb (x y : double) : bool := SFeqb x y.

(** A decimal literal [n / 10^k] denotes the double nearest to it; the
    correctly rounded quotient of the two exactly representable integers
    is that double. *)
Definition of_ratio (n d : Z) : double := div (of_int n) (of_int d).

(** The integer part of a finite double, rounding toward zero. *)
Definition trunc (d : double) : option Z :=
  match d with
  | S754_zero _ => Some 0
  | S754_finite s m e => Some (cond_Zopp s (Z.shiftl (Zpos m) e))
  | S754_infinity _ | S754_nan => None
  end.

(** [static_cast<int>(d)]: the fractional part is discarded; the
    behaviour is undefined ([None]) when the truncated value is not
    representable in [int]. *)
Definition to_int (d : double) : option Z :=
  match trunc d with
  | Some z => if in_int z then Some z else None
  | None => None
  end.

Definition zero : double := S754_zero false.
Definition one : double := of_int 1.

End Double.

(* ------------------------------------------------------------------ *)
(** ** Streams, events and programs *)

Module Io.

(** The two output streams: [std::cout] and [std::clog]. *)
Inductive stream : Type := Cout | Clog.

Definition stream_eqb (a b : stream) : bool :=
  match a, b with
  | Cout, Cout | Clog, Clog => true
  | _, _ => false
  end.

(** One stream operation: an insertion [s << text] with the characters it
    inserts, or [s << std::flush]. *)
Inductive event : Type :=
| Write (s : stream) (text : string)
| Flush (s : stream).

(** What a process sees and does: the bytes waiting on its standard
    input, and the stream operations performed so far, oldest first. *)
Record world : Type := World { input : string; trace : list event }.

Definition emit (w : world) (evs : list event) : world :=
  {| input := input w; trace := trace w ++ evs |}.

(** A program threads the world and may fail ([None]: undefined
    behaviour). *)
Definition prog (A : Type) : Type := world -> option (A * world).

Definition ret {A} (a : A) : prog A := fun w => Some (a, w).

Definition bind {A B} (p : prog A) (k : A -> prog B) : prog B :=
  fun w => match p w with
           | Some (a, w') => k a w'
           | None => None
           end.

Definition lift {A} (o : option A) : prog A :=
  fun w => match o with
           | Some a => Some (a, w)
           | None => None
           end.

Definition write (s : stream) (text : string) : prog unit :=
  fun w => Some (tt, emit w [Write s text]).

Definition flush (s : stream) : prog unit :=
  fun w => Some (tt, emit w [Flush s]).

(** [for (int i = lo; i < hi; ++i) body], for a body that does not assign
    [i]: [n] successive iterations from [i], then the loop itself. *)
Fixpoint iterate (n : nat) (i : Z) (body : Z -> prog unit) : prog unit :=
  match n with
  | O => ret tt
  | S n' => bind (body i) (fun _ => iterate n' (i + 1) body)
  end.

Definition for_lt (lo hi : Z) (body : Z -> prog unit) : prog unit :=
  iterate (Z.to_nat (hi - lo)) lo body.

(** The characters a trace has inserted into stream [s]. *)
Fixpoint contents (s : stream) (evs : list event) : string :=
  match evs with
  | [] => ""
  | Write s' text :: evs' =>
      if stream_eqb s s' then (text ++ contents s evs')%string
      else contents s evs'
  | Flush _ :: evs' => contents s evs'
  end.

End Io.

Declare Scope prog_scope.
Delimit Scope prog_scope with prog.
Notation "x <- p ;; k" := (Io.bind p (fun x => k))
  (at level 61, p at next level, right associativity) : prog_scope.
Notation "p ;; k" := (Io.bind p (fun _ => k))
  (at level 61, right associativity) : prog_scope.

(* ------------------------------------------------------------------ *)
(** ** Text *)

Module Text.

Definition nl : ascii := ascii_of_nat 10.
Definition cr : ascii := ascii_of_nat 13.

(** [operator<<(int)]: the decimal digits, with a leading minus sign for
    a negative number. *)
Definition show_int (n : Z) : string := NilZero.string_of_int (Z.to_int n).

(** The lines of a text: maximal runs of characters other than the line
    feed, each ended by a line feed (the last one possibly not). *)
Fixpoint lines (s : string) : list string :=
  match s with
  | EmptyString => []
  | String c s' =>
      if Ascii.eqb c nl then EmptyString :: lines s'
      else match lines s' with
           | [] => [String c EmptyString]
           | l :: ls => String c l :: ls
           end
  end.

Fixpoint no_nl (s : string) : bool :=
  match s with
  | EmptyString => true
  | String c s' => negb (Ascii.eqb c nl) && no_nl s'
  end.

End Text.

(* ------------------------------------------------------------------ *)
(** ** The program *)

(** The literal [255.999]. *)
Definition c255_999 : Double.double := Double.of_ratio 255999 1000.

Definition image_width : Z := 256.
Definition image_height : Z := 256.

(** [double(k) / (dim - 1)], lines 12 and 13: the normalized coordinate of
    index [k] along a dimension of [dim] pixels. *)
Definition normalized (k dim : Z) : Double.double :=
  Double.div (Double.of_int k) (Double.of_int (dim - 1)).

(** [static_cast<int>(255.999 * c)], lines 16 to 18. *)
Definition scale (c : Double.double) : option Z :=
  Double.to_int (Double.mul c255_999 c).

(** Lines 12 to 18: the three intensities of the pixel at row [i], column
    [j]; [b] is the [int] 0, converted to [double] by the product. *)
Definition pixel (i j : Z) : option (Z * Z * Z) :=
  let r := normalized j image_width in
  let g := normalized i image_height in
  let b := 0 in
  match scale r with
  | Some ir =>
      match scale g with
      | Some ig =>
          match scale (Double.of_int b) with
          | Some ib => Some (ir, ig, ib)
          | None => None
          end
      | None => None
      end
  | None => None
  end.

Section Program.
Import Io Text.
Local Open Scope prog_scope.

Definition put (s : stream) (c : ascii) : prog unit :=
  write s (String c EmptyString).

Definition print (s : stream) (n : Z) : prog unit :=
  write s (show_int n).

(** Line 20. *)
Definition emit_pixel (i j : Z) : prog unit :=
  c <- lift (pixel i j) ;;
  let '(ir, ig, ib) := c in
  print Cout ir ;; put Cout " " ;; print Cout ig ;; put Cout " " ;;
  print Cout ib ;; put Cout nl.

(** Line 10. *)
Definition progress (i : Z) : prog unit :=
  write Clog (String cr "Scanlines remaining: ") ;;
  print Clog (image_height - 1) ;; put Clog " " ;; flush Clog.

(** [main], lines 3 to 25.  Control reaches the end of [main] without a
    [return]: the exit code is 0. *)
Definition main : prog Z :=
  write Cout ("P3" ++ String nl "") ;;
  print Cout image_width ;; put Cout " " ;; print Cout image_height ;;
  write Cout (String nl "255" ++ String nl "") ;;
  for_lt 0 image_height (fun i =>
    progress i ;;
    for_lt 0 image_width (fun j => emit_pixel i j)) ;;
  write Clog (String cr "Done.                 " ++ String nl "") ;;
  ret 0.

End Program.

(** The exit code and the stream operations of a finished run. *)
Definition outcome (r : option (Z * Io.world)) : option (Z * list Io.event) :=
  match r with
  | Some (code, w) => Some (code, Io.trace w)
  | None => None
  end.

(** A run of the process: [main] from a world whose streams are still
    empty, with [inp] waiting on the standard input. *)
Definition exec (inp : string) : option (Z * list Io.event) :=
  outcome (main (Io.World inp [])).

(* ------------------------------------------------------------------ *)
(** ** The vocabulary of the specification *)

(** [zrange n lo] lists [lo], [lo + 1], ..., [lo + n - 1]: the values a
    loop counter takes. *)
Fixpoint zrange (n : nat) (lo : Z) : list Z :=
  match n with
  | O => []
  | S n' => lo :: zrange n' (lo + 1)
  end.

Definition rows : list Z := zrange (Z.to_nat (image_height - 0)) 0.
Definition columns : list Z := zrange (Z.to_nat (image_width - 0)) 0.

(** [emits p a evs]: from every world, [p] returns [a] after performing
    exactly the stream operations [evs], and touches nothing else. *)
Definition emits {A} (p : Io.prog A) (a : A) (evs : list Io.event) : Prop :=
  forall w, p w = Some (a, Io.emit w evs).

(** A pixel line without its line feed. *)
Definition pixel_line (c : Z * Z * Z) : string :=
  let '(ir, ig, ib) := c in
  (Text.show_int ir ++ " " ++ Text.show_int ig ++ " " ++ Text.show_int ib)%string.

Section Traces.
Import Io Text.

Definition header_events : list event :=
  [ Write Cout ("P3" ++ String nl "");
    Write Cout (show_int image_width); Write Cout " ";
    Write Cout (show_int image_height);
    Write Cout (String nl "255" ++ String nl "") ].

Definition progress_events : list event :=
  [ Write Clog (String cr "Scanlines remaining: ");
    Write Clog (show_int (image_height - 1)); Write Clog " ";
    Flush Clog ].

Definition pixel_events (i j : Z) : list event :=
  match pixel i j with
  | Some (ir, ig, ib) =>
      [ Write Cout (show_int ir); Write Cout " ";
        Write Cout (show_int ig); Write Cout " ";
        Write Cout (show_int ib); Write Cout (String nl "") ]
  | None => []
  end.

Definition row_events (i : Z) : list event :=
  progress_events ++ flat_map (pixel_events i) columns.

Definition done_event : event :=
  Write Clog (String cr "Done.                 " ++ String nl "").

Definition body_events : list event :=
  header_events ++ flat_map row_events rows.

Definition main_events : list event := body_events ++ [done_event].

(** The row-major enumeration of the pixel coordinates. *)
Definition grid : list (Z * Z) :=
  flat_map (fun i => map (pair i) columns) rows.

(** Concatenation of a list of texts. *)
Definition cat (ls : list string) : string :=
  fold_right String.append EmptyString ls.

(** The primary stream of a trace, as lines. *)
Definition cout_lines_of (tr : list event) : list string :=
  lines (contents Cout tr).

(** The line of the primary stream that holds the pixel of row [i],
    column [j]: the three header lines come first, then the rows from the
    top, each from the left. *)
Definition output_line (tr : list event) (i j : Z) : option string :=
  nth_error (cout_lines_of tr) (3 + Z.to_nat (i * image_width + j)).

Definition red (c : Z * Z * Z) : Z := fst (fst c).
Definition green (c : Z * Z * Z) : Z := snd (fst c).
Definition blue (c : Z * Z * Z) : Z := snd c.

(** The three header lines for a 256 by 256 image. *)
Definition header_lines : list string := ["P3"; "256 256"; "255"].

(** The progress text the code writes at every row. *)
Definition progress_text : string :=
  (String cr "Scanlines remaining: " ++ show_int (image_height - 1) ++ " ")%string.

Definition done_text : string :=
  (String cr "Done.                 " ++ String nl "")%string.

(** The progress text the specification asks for at row [i]: the number
    of scanlines remaining, [image_height - i]. *)
Definition progress_text_expected (i : Z) : string :=
  (String cr "Scanlines remaining: " ++ show_int (image_height - i) ++ " ")%string.

(** The number of [s << std::flush] operations in a trace. *)
Fixpoint count_flush (s : stream) (tr : list event) : nat :=
  match tr with
  | [] => O
  | Flush s' :: tr' =>
      if stream_eqb s s' then S (count_flush s tr') else count_flush s tr'
  | Write _ _ :: tr' => count_flush s tr'
  end.

(** The text made of the given lines, each ended by a line feed. *)
Definition unlines (ls : list string) : string :=
  cat (map (fun l => l ++ String nl "")%string ls).

(** The characters of a plain PPM file as this program writes it: the
    [P] of the magic number, the decimal digits, the space and the line
    feed. *)
Definition ppm_char (c : ascii) : bool :=
  Ascii.eqb c "P" || Ascii.eqb c " " || Ascii.eqb c nl
  || ((48 <=? nat_of_ascii c)%nat && (nat_of_ascii c <=? 57)%nat).

Fixpoint all_chars (p : ascii -> bool) (s : string) : bool :=
  match s with
  | EmptyString => true
  | String c s' => p c && all_chars p s'
  end.

(** The intensities of the [n] indices from [k] on, along a dimension of
    [dim] pixels, are defined, at most 255 and in order from [prev] up. *)
Fixpoint walk (dim : Z) (n : nat) (k prev : Z) : bool :=
  match n with
  | O => true
  | S n' =>
      match scale (normalized k dim) with
      | Some v => (prev <=? v) && (v <=? 255) && walk dim n' (k + 1) v
      | None => false
      end
  end.

(** The first index of a dimension has intensity 0, the last 255, and the
    intensities of all its indices are in order. *)
Definition dim_ok (dim : Z) : bool :=
  match scale (normalized 0 dim), scale (normalized (dim - 1) dim) with
  | Some 0, Some 255 => walk dim (Z.to_nat dim) 0 0
  | _, _ => false
  end.

End Traces.

(* ------------------------------------------------------------------ *)
(** ** Index ranges *)

Lemma zrange_length n lo : List.length (zrange n lo) = n.
Proof.
  revert lo; induction n as [|n IH]; intro lo; simpl; [reflexivity|].
  now rewrite IH.
Qed.

Lemma zrange_In n lo k :
  In k (zrange n lo) <-> lo <= k < lo + Z.of_nat n.
Proof.
  revert lo; induction n as [|n IH]; intro lo.
  - simpl; lia.
  - cbn [zrange In]. rewrite IH. lia.
Qed.

Lemma zrange_nth_error n lo k :
  (k < n)%nat -> nth_error (zrange n lo) k = Some (lo + Z.of_nat k).
Proof.
  revert lo k; induction n as [|n IH]; intros lo k Hk; [lia|].
  destruct k as [|k]; simpl.
  - f_equal; lia.
  - rewrite IH by lia. f_equal; lia.
Qed.

Lemma zrange_forallb (P : Z -> bool) n lo :
  forallb P (zrange n lo) = true ->
  forall k, lo <= k < lo + Z.of_nat n -> P k = true.
Proof.
  intros H k Hk. rewrite forallb_forall in H. apply H, zrange_In, Hk.
Qed.

(** Row-major indexing of a grid given as a list of rs. *)
Lemma nth_error_grid {A B C} (f : A -> B -> C) (cols : list B) :
  forall (rs : list A) (a b : nat) x y,
    nth_error rs a = Some x ->
    nth_error cols b = Some y ->
    nth_error (flat_map (fun i => map (f i) cols) rs) (a * List.length cols + b)
    = Some (f x y).
Proof.
  induction rs as [|r rs IH]; intros a b x y Ha Hb.
  - destruct a; discriminate.
  - assert (Hlt : (b < List.length cols)%nat)
      by (apply nth_error_Some; congruence).
    destruct a as [|a]; cbn [flat_map].
    + injection Ha as ->. rewrite nth_error_app1 by (rewrite length_map; lia).
      cbn [Nat.mul Nat.add]. now rewrite nth_error_map, Hb.
    + rewrite nth_error_app2 by (rewrite length_map; lia).
      rewrite length_map.
      replace (S a * List.length cols + b - List.length cols)%nat
        with (a * List.length cols + b)%nat by lia.
      now apply IH.
Qed.

Lemma length_grid {A B C} (f : A -> B -> C) (cols : list B) (rs : list A) :
  List.length (flat_map (fun i => map (f i) cols) rs)
  = (List.length rs * List.length cols)%nat.
Proof.
  induction rs as [|r rs IH]; cbn [flat_map List.length]; [reflexivity|].
  rewrite length_app, length_map, IH. lia.
Qed.

(* ------------------------------------------------------------------ *)
(** ** What a program emits *)

Section Emits.
Import Io.

Lemma emit_nil w : emit w [] = w.
Proof. destruct w; unfold emit; simpl. now rewrite app_nil_r. Qed.

Lemma emit_emit w e1 e2 : emit (emit w e1) e2 = emit w (e1 ++ e2).
Proof. unfold emit; simpl. now rewrite app_assoc. Qed.

Lemma emits_ret {A} (a : A) : emits (ret a) a [].
Proof. intro w. unfold ret. now rewrite emit_nil. Qed.

Lemma emits_write s text : emits (write s text) tt [Write s text].
Proof. intro w; reflexivity. Qed.

Lemma emits_flush s : emits (flush s) tt [Flush s].
Proof. intro w; reflexivity. Qed.

Lemma emits_lift {A} (o : option A) a : o = Some a -> emits (lift o) a [].
Proof. intros -> w. unfold lift. now rewrite emit_nil. Qed.

Lemma emits_bind {A B} (p : prog A) (k : A -> prog B) a b e1 e2 :
  emits p a e1 -> emits (k a) b e2 -> emits (bind p k) b (e1 ++ e2).
Proof.
  intros Hp Hk w. unfold bind. rewrite Hp, Hk. now rewrite emit_emit.
Qed.

Lemma emits_iterate (body : Z -> prog unit) (f : Z -> list event) :
  forall n lo,
    (forall i, lo <= i < lo + Z.of_nat n -> emits (body i) tt (f i)) ->
    emits (iterate n lo body) tt (flat_map f (zrange n lo)).
Proof.
  induction n as [|n IH]; intros lo Hbody.
  - apply emits_ret.
  - cbn [iterate zrange flat_map]. apply emits_bind with (a := tt).
    + apply Hbody; lia.
    + apply IH. intros i Hi. apply Hbody; lia.
Qed.

Lemma emits_for_lt (body : Z -> prog unit) (f : Z -> list event) lo hi :
  (forall i, lo <= i < hi -> emits (body i) tt (f i)) ->
  emits (for_lt lo hi body) tt (flat_map f (zrange (Z.to_nat (hi - lo)) lo)).
Proof.
  intro Hbody. apply emits_iterate. intros i Hi. apply Hbody; lia.
Qed.

(** The loop combinator obeys the equations of the [for] statement. *)
Lemma for_lt_exit lo hi body : hi <= lo -> for_lt lo hi body = ret tt.
Proof.
  intro H. unfold for_lt. replace (Z.to_nat (hi - lo)) with O by lia.
  reflexivity.
Qed.

Lemma for_lt_step lo hi body :
  lo < hi ->
  for_lt lo hi body = bind (body lo) (fun _ => for_lt (lo + 1) hi body).
Proof.
  intro H. unfold for_lt.
  replace (Z.to_nat (hi - lo)) with (S (Z.to_nat (hi - (lo + 1)))) by lia.
  reflexivity.
Qed.

Lemma contents_app s e1 e2 :
  contents s (e1 ++ e2) = (contents s e1 ++ contents s e2)%string.
Proof.
  induction e1 as [|[s' t|s'] e1 IH]; cbn [app contents]; auto.
  destruct (stream_eqb s s'); auto.
  rewrite IH. clear. induction t; simpl; congruence.
Qed.

End Emits.

(* ------------------------------------------------------------------ *)
(** ** The arithmetic of the channels *)

(** Every index of a 256-pixel dimension is its own intensity: checked on
    the 256 indices by evaluating the binary64 operations. *)
Lemma scale_normalized k :
  0 <= k < 256 -> scale (normalized k 256) = Some k.
Proof.
  intro Hk.
  assert (C : forallb
                (fun k => match scale (normalized k 256) with
                          | Some z => z =? k
                          | None => false
                          end) (zrange 256 0) = true)
    by (vm_compute; reflexivity).
  pose proof (zrange_forallb _ _ _ C k) as H. cbv beta in H.
  destruct (scale (normalized k 256)) as [z|].
  - f_equal. apply Z.eqb_eq, H. lia.
  - discriminate H. lia.
Qed.

Lemma scale_zero : scale (Double.of_int 0) = Some 0.
Proof. vm_compute; reflexivity. Qed.

Lemma pixel_value i j :
  0 <= i < 256 -> 0 <= j < 256 -> pixel i j = Some (j, i, 0).
Proof.
  intros Hi Hj. unfold pixel.
  change image_width with 256; change image_height with 256.
  now rewrite (scale_normalized j Hj), (scale_normalized i Hi), scale_zero.
Qed.

Lemma show_int_no_nl k :
  0 <= k < 256 -> Text.no_nl (Text.show_int k) = true.
Proof.
  intro Hk.
  assert (C : forallb (fun k => Text.no_nl (Text.show_int k)) (zrange 256 0)
              = true) by (vm_compute; reflexivity).
  apply (zrange_forallb _ _ _ C). lia.
Qed.

(* ------------------------------------------------------------------ *)
(** ** The trace of [main] *)

Section MainTrace.
Import Io Text.

Lemma emits_eq {A} (p : prog A) a e e' :
  emits p a e -> e = e' -> emits p a e'.
Proof. now intros H <-. Qed.

Ltac emits_steps :=
  repeat first
    [ apply emits_write | apply emits_flush | apply emits_ret
    | eapply emits_bind ].

Lemma emits_progress i : emits (progress i) tt progress_events.
Proof.
  unfold progress, print, put.
  eapply emits_eq; [emits_steps | reflexivity].
Qed.

Lemma emits_emit_pixel i j :
  0 <= i < 256 -> 0 <= j < 256 ->
  emits (emit_pixel i j) tt (pixel_events i j).
Proof.
  intros Hi Hj. unfold emit_pixel, pixel_events, print, put.
  rewrite (pixel_value i j Hi Hj).
  eapply emits_eq.
  - eapply emits_bind; [apply emits_lift; reflexivity|].
    cbv beta iota. emits_steps.
  - reflexivity.
Qed.

Lemma emits_row i :
  0 <= i < 256 ->
  emits (bind (progress i)
           (fun _ => for_lt 0 image_width (fun j => emit_pixel i j)))
    tt (row_events i).
Proof.
  intro Hi. unfold row_events. eapply emits_bind.
  - apply emits_progress.
  - apply emits_for_lt. intros j Hj. apply emits_emit_pixel; [lia|].
    unfold image_width in Hj. lia.
Qed.

Lemma emits_main : emits main 0 main_events.
Proof.
  unfold main, main_events, body_events, print, put.
  eapply emits_eq.
  - do 5 (eapply emits_bind; [apply emits_write|]).
    eapply emits_bind.
    + apply emits_for_lt with (f := row_events).
      intros i Hi. apply emits_row. unfold image_height in Hi. lia.
    + eapply emits_bind; [apply emits_write | apply emits_ret].
  - unfold header_events, rows, done_event. cbn [app].
    reflexivity.
Qed.

(** Every run succeeds, returns 0 and performs [main_events]. *)
Lemma exec_main inp : exec inp = Some (0, main_events).
Proof. unfold exec. now rewrite emits_main. Qed.

End MainTrace.

(* ------------------------------------------------------------------ *)
(** ** Texts and their lines *)

Section Lines.
Import Text.
Local Open Scope string_scope.

Lemma sapp_assoc (a b c : string) :
  (a ++ b) ++ c = a ++ (b ++ c).
Proof. induction a as [|x a IH]; simpl; congruence. Qed.

Lemma sapp_nil_r (a : string) : a ++ "" = a.
Proof. induction a as [|x a IH]; simpl; congruence. Qed.

Lemma no_nl_app a b : no_nl (a ++ b) = no_nl a && no_nl b.
Proof.
  induction a as [|x a IH]; simpl; [reflexivity|].
  now rewrite IH, andb_assoc.
Qed.

(** A text that starts with a complete line. *)
Lemma lines_line l rest :
  no_nl l = true -> lines (l ++ String nl rest) = l :: lines rest.
Proof.
  induction l as [|c l IH]; intro H.
  - reflexivity.
  - cbn [no_nl] in H. apply andb_prop in H as [Hc Hl].
    cbn [append lines]. apply negb_true_iff in Hc. rewrite Hc.
    now rewrite (IH Hl).
Qed.

Lemma lines_cat {A} (f : A -> string) (xs : list A) rest :
  (forall x, In x xs -> no_nl (f x) = true) ->
  lines (cat (map (fun x => f x ++ String nl "") xs) ++ rest)
  = (map f xs ++ lines rest)%list.
Proof.
  induction xs as [|x xs IH]; intro H.
  - reflexivity.
  - cbn [map cat fold_right app]. fold (cat (map (fun x => f x ++ String nl "") xs)).
    rewrite !sapp_assoc. cbn [append].
    rewrite lines_line by (apply H; now left).
    f_equal. apply IH. intros y Hy. apply H. now right.
Qed.

Lemma cat_app a b : cat (a ++ b)%list = cat a ++ cat b.
Proof.
  induction a as [|x a IH]; [reflexivity|].
  cbn [app cat fold_right]. fold (cat (a ++ b)%list). fold (cat a).
  now rewrite IH, sapp_assoc.
Qed.

Lemma cat_grid {A B C} (f : A -> B -> C) (g : C -> string) cols rs :
  cat (map (fun i => cat (map (fun j => g (f i j)) cols)) rs)
  = cat (map g (flat_map (fun i => map (f i) cols) rs)).
Proof.
  induction rs as [|r rs IH]; [reflexivity|].
  cbn [map flat_map]. rewrite map_app, cat_app, map_map, <- IH.
  reflexivity.
Qed.

End Lines.

(* ------------------------------------------------------------------ *)
(** ** The contents of the two streams *)

Section Contents.
Import Io Text.
Local Open Scope string_scope.

Lemma contents_flat_map {A} s (f : A -> list event) xs :
  contents s (flat_map f xs) = cat (map (fun x => contents s (f x)) xs).
Proof.
  induction xs as [|x xs IH]; [reflexivity|].
  cbn [flat_map map]. rewrite contents_app, IH. reflexivity.
Qed.

Lemma columns_In j : In j columns <-> (0 <= j < 256)%Z.
Proof. unfold columns. rewrite zrange_In. unfold image_width. lia. Qed.

Lemma rows_In i : In i rows <-> (0 <= i < 256)%Z.
Proof. unfold rows. rewrite zrange_In. unfold image_height. lia. Qed.

Lemma grid_In i j :
  In (i, j) grid <-> (0 <= i < 256)%Z /\ (0 <= j < 256)%Z.
Proof.
  unfold grid. rewrite in_flat_map. split.
  - intros (r & Hr & Hin). apply in_map_iff in Hin as (c & Heq & Hc).
    injection Heq as -> ->. now rewrite <- rows_In, <- columns_In.
  - intros [Hi Hj]. exists i. rewrite rows_In. split; [assumption|].
    apply in_map, columns_In, Hj.
Qed.

Lemma contents_cout_pixel i j :
  (0 <= i < 256)%Z -> (0 <= j < 256)%Z ->
  contents Cout (pixel_events i j) = pixel_line (j, i, 0%Z) ++ String nl "".
Proof.
  intros Hi Hj. unfold pixel_events. rewrite (pixel_value i j Hi Hj).
  cbn [contents stream_eqb pixel_line].
  now rewrite !sapp_assoc, sapp_nil_r.
Qed.

Lemma contents_clog_pixel i j : contents Clog (pixel_events i j) = "".
Proof.
  unfold pixel_events. destruct (pixel i j) as [[[ir ig] ib]|]; reflexivity.
Qed.

Lemma contents_cout_progress : contents Cout progress_events = "".
Proof. reflexivity. Qed.

Lemma contents_clog_progress : contents Clog progress_events = progress_text.
Proof.
  unfold progress_events, progress_text. cbn [contents stream_eqb].
  now rewrite sapp_nil_r.
Qed.

Lemma contents_cout_row i :
  (0 <= i < 256)%Z ->
  contents Cout (row_events i)
  = cat (map (fun j => pixel_line (j, i, 0%Z) ++ String nl "") columns).
Proof.
  intro Hi. unfold row_events.
  rewrite contents_app, contents_cout_progress, contents_flat_map.
  cbn [append]. apply (f_equal cat). apply map_ext_in. intros j Hj.
  apply contents_cout_pixel; [assumption | now apply columns_In].
Qed.

Lemma cat_const_empty {A} (xs : list A) : cat (map (fun _ => "") xs) = "".
Proof. induction xs as [|x xs IH]; [reflexivity | exact IH]. Qed.

Lemma contents_clog_row i : contents Clog (row_events i) = progress_text.
Proof.
  unfold row_events.
  rewrite contents_app, contents_clog_progress, contents_flat_map.
  rewrite (map_ext _ (fun _ => "")) by (intro j; apply contents_clog_pixel).
  now rewrite cat_const_empty, sapp_nil_r.
Qed.

(** The text of a pixel's line, by its coordinates in the grid. *)
Lemma contents_cout_rows :
  contents Cout (flat_map row_events rows)
  = cat (map (fun p => pixel_line (snd p, fst p, 0%Z) ++ String nl "") grid).
Proof.
  rewrite contents_flat_map.
  rewrite (map_ext_in _
             (fun i => cat (map (fun j => pixel_line (snd (i, j), fst (i, j), 0%Z)
                                          ++ String nl "") columns)))
    by (intros i Hi; apply contents_cout_row, rows_In, Hi).
  unfold grid.
  apply (cat_grid pair (fun p => pixel_line (snd p, fst p, 0%Z) ++ String nl "")).
Qed.

Lemma contents_cout_header :
  contents Cout header_events
  = "P3" ++ String nl ("256 256" ++ String nl ("255" ++ String nl "")).
Proof. vm_compute; reflexivity. Qed.

Lemma pixel_line_no_nl i j :
  (0 <= i < 256)%Z -> (0 <= j < 256)%Z ->
  no_nl (pixel_line (j, i, 0%Z)) = true.
Proof.
  intros Hi Hj. unfold pixel_line.
  rewrite !no_nl_app, !show_int_no_nl by lia. reflexivity.
Qed.

Lemma lines_header rest :
  lines (("P3" ++ String nl ("256 256" ++ String nl ("255" ++ String nl "")))
         ++ rest)
  = "P3" :: "256 256" :: "255" :: lines rest.
Proof. reflexivity. Qed.

(** The lines of the primary stream: the header, then one line per pixel
    of the grid in row-major order. *)
Lemma cout_lines :
  lines (contents Cout body_events)
  = (header_lines ++ map (fun p => pixel_line (snd p, fst p, 0%Z)) grid)%list.
Proof.
  unfold body_events.
  rewrite contents_app, contents_cout_header, contents_cout_rows.
  rewrite lines_header. unfold header_lines. cbn [app].
  apply (f_equal (fun t => "P3" :: "256 256" :: "255" :: t)).
  rewrite <- (sapp_nil_r (cat _)).
  rewrite (lines_cat (fun p => pixel_line (snd p, fst p, 0%Z))).
  - cbn [lines]. now rewrite app_nil_r.
  - intros [i j] Hin. apply grid_In in Hin as [Hi Hj].
    now apply pixel_line_no_nl.
Qed.

Lemma contents_cout_main :
  contents Cout main_events = contents Cout body_events.
Proof.
  unfold main_events. rewrite contents_app. cbn [contents stream_eqb].
  apply sapp_nil_r.
Qed.

End Contents.

(* ------------------------------------------------------------------ *)
(** ** The output, line by line *)

Section Output.
Import Io Text.

Lemma rows_length : List.length rows = 256%nat.
Proof. unfold rows. now rewrite zrange_length. Qed.

Lemma columns_length : List.length columns = 256%nat.
Proof. unfold columns. now rewrite zrange_length. Qed.

Lemma grid_length : List.length grid = (256 * 256)%nat.
Proof.
  unfold grid. now rewrite length_grid, rows_length, columns_length.
Qed.

Lemma grid_nth i j :
  0 <= i < 256 -> 0 <= j < 256 ->
  nth_error grid (Z.to_nat (i * 256 + j)) = Some (i, j).
Proof.
  intros Hi Hj.
  replace (Z.to_nat (i * 256 + j))
    with (Z.to_nat i * List.length columns + Z.to_nat j)%nat
    by (rewrite columns_length; lia).
  unfold grid. apply nth_error_grid.
  - unfold rows. rewrite zrange_nth_error.
    + f_equal; lia.
    + change (Z.to_nat (image_height - 0)) with 256%nat. lia.
  - unfold columns. rewrite zrange_nth_error.
    + f_equal; lia.
    + change (Z.to_nat (image_width - 0)) with 256%nat. lia.
Qed.

Lemma cout_lines_main :
  cout_lines_of main_events
  = header_lines ++ map (fun p => pixel_line (snd p, fst p, 0)) grid.
Proof.
  unfold cout_lines_of. rewrite contents_cout_main. apply cout_lines.
Qed.

Lemma cout_lines_length :
  List.length (cout_lines_of main_events) = (3 + 256 * 256)%nat.
Proof.
  rewrite cout_lines_main, length_app, length_map, grid_length.
  reflexivity.
Qed.

Lemma output_line_main i j :
  0 <= i < 256 -> 0 <= j < 256 ->
  output_line main_events i j = Some (pixel_line (j, i, 0)).
Proof.
  intros Hi Hj. unfold output_line. rewrite cout_lines_main.
  rewrite nth_error_app2 by (unfold header_lines; cbn [List.length]; lia).
  unfold header_lines. cbn [List.length].
  replace (3 + Z.to_nat (i * image_width + j) - 3)%nat
    with (Z.to_nat (i * 256 + j)) by (unfold image_width; lia).
  now rewrite nth_error_map, (grid_nth i j Hi Hj).
Qed.

End Output.

(* ------------------------------------------------------------------ *)
(** ** Facts about the binary64 values *)

(** The double of the literal is the one nearest to 255.999: it is
    [m * 2^-45], and [|m * 2^-45 - 255.999|] is at most half a unit in the
    last place, [2^-46] (both sides scaled by [1000 * 2^46]). *)
Lemma c255_999_nearest :
  c255_999 = S754_finite false 9007164070368903 (-45) /\
  2 ^ 52 <= 9007164070368903 < 2 ^ 53 /\
  2 * Z.abs (9007164070368903 * 1000 - 255999 * 2 ^ 45) <= 1000.
Proof.
  split; [vm_compute; reflexivity|]. split; [lia|].
  vm_compute; discriminate.
Qed.

(** The divisor of both normalizations is the double 255. *)
Lemma divisor_255 :
  Double.of_int (256 - 1) = S754_finite false 8972014882652160 (-45) /\
  8972014882652160 = 255 * 2 ^ 45.
Proof. split; vm_compute; reflexivity. Qed.

(** A normalized coordinate of the image lies between 0 and 1. *)
Lemma normalized_unit k :
  0 <= k < 256 ->
  Double.leb Double.zero (normalized k 256) = true /\
  Double.leb (normalized k 256) Double.one = true.
Proof.
  intro Hk.
  assert (C : forallb
                (fun k => Double.leb Double.zero (normalized k 256)
                          && Double.leb (normalized k 256) Double.one)
                (zrange 256 0) = true) by (vm_compute; reflexivity).
  apply andb_prop. apply (zrange_forallb _ _ _ C). lia.
Qed.

(** The product [255.999 * (k / 255)] lies in [[k, k + 1)], so that
    discarding its fractional part leaves [k]. *)
Lemma product_bracket k :
  0 <= k < 256 ->
  Double.leb (Double.of_int k) (Double.mul c255_999 (normalized k 256)) = true /\
  SFltb (Double.mul c255_999 (normalized k 256)) (Double.of_int (k + 1)) = true.
Proof.
  intro Hk.
  assert (C : forallb
                (fun k =>
                   Double.leb (Double.of_int k)
                     (Double.mul c255_999 (normalized k 256))
                   && SFltb (Double.mul c255_999 (normalized k 256))
                        (Double.of_int (k + 1)))
                (zrange 256 0) = true) by (vm_compute; reflexivity).
  apply andb_prop. apply (zrange_forallb _ _ _ C). lia.
Qed.

(** [Double.trunc] rounds toward zero: the magnitude of the result is the
    integer part of the magnitude [m * 2^e] of the double. *)
Lemma trunc_toward_zero s m e :
  exists z, Double.trunc (S754_finite s m e) = Some (cond_Zopp s z) /\
    0 <= z /\
    (0 <= e -> z = Zpos m * 2 ^ e) /\
    (e < 0 -> z * 2 ^ (- e) <= Zpos m < (z + 1) * 2 ^ (- e)).
Proof.
  exists (Z.shiftl (Zpos m) e). split; [reflexivity|]. split.
  - apply Z.shiftl_nonneg. lia.
  - split; intro He.
    + now apply Z.shiftl_mul_pow2.
    + rewrite Z.shiftl_div_pow2 by lia.
      pose proof (Z.pow_pos_nonneg 2 (- e) ltac:(lia) ltac:(lia)) as Hp.
      pose proof (Z.div_mod (Zpos m) (2 ^ (- e)) ltac:(lia)) as Hd.
      pose proof (Z.mod_pos_bound (Zpos m) (2 ^ (- e)) Hp) as Hm.
      nia.
Qed.

Lemma scale_one : scale Double.one = Some 255.
Proof. vm_compute; reflexivity. Qed.

Lemma normalized_last : normalized 255 256 = Double.one.
Proof. vm_compute; reflexivity. Qed.

Lemma to_int_trunc d z : Double.to_int d = Some z -> Double.trunc d = Some z.
Proof.
  unfold Double.to_int. destruct (Double.trunc d) as [t|]; [|discriminate].
  destruct (in_int t); [auto | discriminate].
Qed.

Lemma to_int_in_int d z :
  Double.to_int d = Some z -> INT_MIN <= z <= INT_MAX.
Proof.
  unfold Double.to_int. destruct (Double.trunc d) as [t|]; [|discriminate].
  destruct (in_int t) eqn:E; [|discriminate]. intros [= <-].
  unfold in_int in E. apply andb_prop in E as [E1 E2].
  apply Z.leb_le in E1, E2. lia.
Qed.

(* ------------------------------------------------------------------ *)
(** ** The header and the pixel lines *)

(** Bounds on concrete indices. *)
Ltac in_range := unfold image_width, image_height; lia.

(** Claim C6: for the 256 by 256 image, the first three lines of the primary
    stream are [P3], [256 256] and [255], in that order, ahead of
    everything else written to it. *)
Theorem header_first (inp : string) :
  exists tr rest,
    exec inp = Some (0, tr) /\
    image_width = 256 /\ image_height = 256 /\
    Io.contents Io.Cout tr
    = ("P3" ++ String Text.nl ("256 256" ++ String Text.nl
         ("255" ++ String Text.nl rest)))%string /\
    firstn 3 (cout_lines_of tr) = ["P3"; "256 256"; "255"].
Proof.
  exists main_events, (Io.contents Io.Cout (flat_map row_events rows)).
  split; [apply exec_main|]. do 2 (split; [reflexivity|]). split.
  - rewrite contents_cout_main. unfold body_events.
    now rewrite contents_app, contents_cout_header, !sapp_assoc.
  - now rewrite cout_lines_main.
Qed.

(** Claim C2: after the three header lines the primary stream holds exactly
    [image_width * image_height] = 65536 pixel lines, and the [k]-th of them
    (from 0) is the line of the pixel at row [k / image_width], column
    [k mod image_width]. *)
Theorem pixel_lines_row_major (inp : string) (k : Z) :
  0 <= k < image_width * image_height ->
  exists tr c,
    exec inp = Some (0, tr) /\
    image_width * image_height = 65536 /\
    Z.of_nat (List.length (cout_lines_of tr)) = 3 + image_width * image_height /\
    pixel (k / image_width) (k mod image_width) = Some c /\
    nth_error (cout_lines_of tr) (3 + Z.to_nat k) = Some (pixel_line c).
Proof.
  unfold image_width, image_height. intro Hk.
  assert (Hq : 0 <= k / 256 < 256)
    by (split; [apply Z.div_pos | apply Z.div_lt_upper_bound]; lia).
  assert (Hr : 0 <= k mod 256 < 256) by (apply Z.mod_pos_bound; lia).
  exists main_events, (k mod 256, k / 256, 0).
  split; [apply exec_main|]. split; [reflexivity|]. split.
  - rewrite cout_lines_length, Nat2Z.inj_add, Nat2Z.inj_mul. reflexivity.
  - split; [now apply pixel_value|].
    rewrite <- (output_line_main _ _ Hq Hr). unfold output_line, image_width.
    do 3 f_equal. pose proof (Z.div_mod k 256 ltac:(lia)). lia.
Qed.

Lemma pixel_lines_row_major_witness :
  0 <= 300 < image_width * image_height /\
  exists tr c,
    exec "" = Some (0, tr) /\
    image_width * image_height = 65536 /\
    Z.of_nat (List.length (cout_lines_of tr)) = 3 + image_width * image_height /\
    pixel (300 / image_width) (300 mod image_width) = Some c /\
    nth_error (cout_lines_of tr) (3 + Z.to_nat 300) = Some (pixel_line c).
Proof.
  split; [in_range|].
  apply (pixel_lines_row_major "" 300). in_range.
Defined.

(** Claim C3: the lines of the four corner pixels are [0 0 0] (row 0,
    column 0), [255 0 0] (row 0, column 255), [0 255 0] (row 255, column 0)
    and [255 255 0] (row 255, column 255). *)
Theorem corner_pixels (inp : string) :
  exists tr,
    exec inp = Some (0, tr) /\
    output_line tr 0 0 = Some "0 0 0" /\
    output_line tr 0 255 = Some "255 0 0" /\
    output_line tr 255 0 = Some "0 255 0" /\
    output_line tr 255 255 = Some "255 255 0".
Proof.
  exists main_events. split; [apply exec_main|].
  rewrite !output_line_main by lia. repeat split; reflexivity.
Qed.

(** Claim C8: for all indices [0 <= i, j <= 255] the intensities are the
    indices themselves, the integer part of [255.999 * (k / 255)] being [k]
    for every [0 <= k <= 255]; the line emitted for row [i], column [j] is
    [j i 0]. *)
Theorem pixel_is_its_indices (inp : string) (i j : Z) :
  0 <= i <= 255 -> 0 <= j <= 255 ->
  exists tr,
    exec inp = Some (0, tr) /\
    Double.trunc (Double.mul c255_999
                    (Double.div (Double.of_int j) (Double.of_int 255)))
    = Some j /\
    Double.trunc (Double.mul c255_999
                    (Double.div (Double.of_int i) (Double.of_int 255)))
    = Some i /\
    pixel i j = Some (j, i, 0) /\
    output_line tr i j
    = Some (Text.show_int j ++ " " ++ Text.show_int i ++ " " ++ "0")%string.
Proof.
  intros Hi Hj. exists main_events. split; [apply exec_main|].
  split; [apply to_int_trunc, (scale_normalized j); lia|].
  split; [apply to_int_trunc, (scale_normalized i); lia|].
  split; [apply pixel_value; lia|].
  rewrite output_line_main by lia. reflexivity.
Qed.

Lemma pixel_is_its_indices_witness :
  0 <= 17 <= 255 /\ 0 <= 200 <= 255 /\
  exists tr,
    exec "" = Some (0, tr) /\
    Double.trunc (Double.mul c255_999
                    (Double.div (Double.of_int 200) (Double.of_int 255)))
    = Some 200 /\
    Double.trunc (Double.mul c255_999
                    (Double.div (Double.of_int 17) (Double.of_int 255)))
    = Some 17 /\
    pixel 17 200 = Some (200, 17, 0) /\
    output_line tr 17 200
    = Some (Text.show_int 200 ++ " " ++ Text.show_int 17 ++ " " ++ "0")%string.
Proof.
  split; [in_range|].
  split; [in_range|].
  apply (pixel_is_its_indices "" 17 200); in_range.
Defined.

(* ------------------------------------------------------------------ *)
(** ** The channel values *)

(** Claim C4: each intensity of an emitted pixel is the integer part of the
    product of 255.999 and the normalized coordinate: the product lies
    between the intensity and its successor; every intensity is in
    [[0, 255]]; the coordinate 1.0, that of the last index, gives 255, not
    256. *)
Theorem channel_range (inp : string) (i j : Z) :
  0 <= i < image_height -> 0 <= j < image_width ->
  exists tr ir ig ib,
    exec inp = Some (0, tr) /\
    output_line tr i j = Some (pixel_line (ir, ig, ib)) /\
    pixel i j = Some (ir, ig, ib) /\
    Double.trunc (Double.mul c255_999 (normalized j image_width)) = Some ir /\
    Double.trunc (Double.mul c255_999 (normalized i image_height)) = Some ig /\
    Double.trunc (Double.mul c255_999 (Double.of_int 0)) = Some ib /\
    Double.leb (Double.of_int ir)
      (Double.mul c255_999 (normalized j image_width)) = true /\
    SFltb (Double.mul c255_999 (normalized j image_width))
      (Double.of_int (ir + 1)) = true /\
    Double.leb (Double.of_int ig)
      (Double.mul c255_999 (normalized i image_height)) = true /\
    SFltb (Double.mul c255_999 (normalized i image_height))
      (Double.of_int (ig + 1)) = true /\
    0 <= ir <= 255 /\ 0 <= ig <= 255 /\ 0 <= ib <= 255 /\
    scale Double.one = Some 255 /\
    normalized (image_width - 1) image_width = Double.one /\
    normalized (image_height - 1) image_height = Double.one.
Proof.
  unfold image_width, image_height. intros Hi Hj.
  exists main_events, j, i, 0.
  split; [apply exec_main|].
  split; [now apply output_line_main|].
  split; [now apply pixel_value|].
  split; [apply to_int_trunc, scale_normalized, Hj|].
  split; [apply to_int_trunc, scale_normalized, Hi|].
  split; [apply to_int_trunc, scale_zero|].
  destruct (product_bracket j Hj) as [Hj1 Hj2].
  destruct (product_bracket i Hi) as [Hi1 Hi2].
  do 4 (split; [assumption|]).
  do 3 (split; [lia|]).
  split; [apply scale_one|].
  split; apply normalized_last.
Qed.

Lemma channel_range_witness :
  0 <= 255 < image_height /\ 0 <= 128 < image_width /\
  exists tr ir ig ib,
    exec "" = Some (0, tr) /\
    output_line tr 255 128 = Some (pixel_line (ir, ig, ib)) /\
    pixel 255 128 = Some (ir, ig, ib) /\
    Double.trunc (Double.mul c255_999 (normalized 128 image_width)) = Some ir /\
    Double.trunc (Double.mul c255_999 (normalized 255 image_height)) = Some ig /\
    Double.trunc (Double.mul c255_999 (Double.of_int 0)) = Some ib /\
    Double.leb (Double.of_int ir)
      (Double.mul c255_999 (normalized 128 image_width)) = true /\
    SFltb (Double.mul c255_999 (normalized 128 image_width))
      (Double.of_int (ir + 1)) = true /\
    Double.leb (Double.of_int ig)
      (Double.mul c255_999 (normalized 255 image_height)) = true /\
    SFltb (Double.mul c255_999 (normalized 255 image_height))
      (Double.of_int (ig + 1)) = true /\
    0 <= ir <= 255 /\ 0 <= ig <= 255 /\ 0 <= ib <= 255 /\
    scale Double.one = Some 255 /\
    normalized (image_width - 1) image_width = Double.one /\
    normalized (image_height - 1) image_height = Double.one.
Proof.
  split; [in_range|].
  split; [in_range|].
  apply (channel_range "" 255 128); in_range.
Defined.

(** Claim C5: along a row the red intensity does not decrease from left to
    right; along a column the green intensity does not decrease from top
    to bottom; the blue intensity is 0 everywhere.  The intensities are
    those of the emitted lines. *)
Theorem channels_monotone (inp : string) (i1 i2 j1 j2 : Z) :
  0 <= i1 <= i2 -> i2 < image_height ->
  0 <= j1 <= j2 -> j2 < image_width ->
  exists tr c c_right c_below,
    exec inp = Some (0, tr) /\
    pixel i1 j1 = Some c /\
    output_line tr i1 j1 = Some (pixel_line c) /\
    pixel i1 j2 = Some c_right /\
    output_line tr i1 j2 = Some (pixel_line c_right) /\
    pixel i2 j1 = Some c_below /\
    output_line tr i2 j1 = Some (pixel_line c_below) /\
    red c <= red c_right /\
    green c <= green c_below /\
    blue c = 0 /\ blue c_right = 0 /\ blue c_below = 0.
Proof.
  unfold image_width, image_height. intros Hi1 Hi2 Hj1 Hj2.
  exists main_events, (j1, i1, 0), (j2, i1, 0), (j1, i2, 0).
  split; [apply exec_main|].
  rewrite !pixel_value, !output_line_main by lia.
  unfold red, green, blue. cbn [fst snd].
  repeat split; lia.
Qed.

Lemma channels_monotone_witness :
  0 <= 3 <= 200 /\ 200 < image_height /\
  0 <= 10 <= 11 /\ 11 < image_width /\
  exists tr c c_right c_below,
    exec "" = Some (0, tr) /\
    pixel 3 10 = Some c /\
    output_line tr 3 10 = Some (pixel_line c) /\
    pixel 3 11 = Some c_right /\
    output_line tr 3 11 = Some (pixel_line c_right) /\
    pixel 200 10 = Some c_below /\
    output_line tr 200 10 = Some (pixel_line c_below) /\
    red c <= red c_right /\
    green c <= green c_below /\
    blue c = 0 /\ blue c_right = 0 /\ blue c_below = 0.
Proof.
  split; [in_range|].
  split; [in_range|].
  split; [in_range|].
  split; [in_range|].
  apply (channels_monotone "" 3 200 10 11); in_range.
Defined.

(** Claim C9: both dimensions are 256, so the divisors [image_width - 1]
    and [image_height - 1] are not zero, as integers and as doubles, and
    the normalized coordinates of every pixel lie between 0 and 1. *)
Theorem coordinates_normalized (i j : Z) :
  0 <= i < image_height -> 0 <= j < image_width ->
  1 < image_width /\ 1 < image_height /\
  image_width - 1 <> 0 /\ image_height - 1 <> 0 /\
  Double.eqb (Double.of_int (image_width - 1)) Double.zero = false /\
  Double.eqb (Double.of_int (image_height - 1)) Double.zero = false /\
  Double.leb Double.zero (normalized j image_width) = true /\
  Double.leb (normalized j image_width) Double.one = true /\
  Double.leb Double.zero (normalized i image_height) = true /\
  Double.leb (normalized i image_height) Double.one = true.
Proof.
  unfold image_width, image_height. intros Hi Hj.
  destruct (normalized_unit i Hi) as [Hi0 Hi1].
  destruct (normalized_unit j Hj) as [Hj0 Hj1].
  do 4 (split; [lia|]).
  do 2 (split; [vm_compute; reflexivity|]).
  auto.
Qed.

Lemma coordinates_normalized_witness :
  0 <= 0 < image_height /\ 0 <= 255 < image_width /\
  1 < image_width /\ 1 < image_height /\
  image_width - 1 <> 0 /\ image_height - 1 <> 0 /\
  Double.eqb (Double.of_int (image_width - 1)) Double.zero = false /\
  Double.eqb (Double.of_int (image_height - 1)) Double.zero = false /\
  Double.leb Double.zero (normalized 255 image_width) = true /\
  Double.leb (normalized 255 image_width) Double.one = true /\
  Double.leb Double.zero (normalized 0 image_height) = true /\
  Double.leb (normalized 0 image_height) Double.one = true.
Proof.
  split; [in_range|].
  split; [in_range|].
  apply (coordinates_normalized 0 255); in_range.
Defined.

(* ------------------------------------------------------------------ *)
(** ** The diagnostic stream and the order of events *)

Section Diagnostics.
Import Io Text.

Lemma contents_clog_header : contents Clog header_events = EmptyString.
Proof. reflexivity. Qed.

Lemma contents_clog_body :
  contents Clog body_events = cat (map (fun _ => progress_text) rows).
Proof.
  unfold body_events.
  rewrite contents_app, contents_clog_header, contents_flat_map.
  cbn [append]. apply (f_equal cat).
  apply map_ext. intro i. apply contents_clog_row.
Qed.

Lemma contents_clog_main :
  contents Clog main_events
  = (cat (map (fun _ => progress_text) rows) ++ done_text)%string.
Proof.
  unfold main_events. rewrite contents_app, contents_clog_body.
  apply f_equal. unfold done_event, done_text. cbn [contents stream_eqb].
  apply sapp_nil_r.
Qed.

Lemma progress_text_255 :
  progress_text = String cr "Scanlines remaining: 255 ".
Proof. vm_compute; reflexivity. Qed.

Lemma done_not_in_pixel i j : ~ In done_event (pixel_events i j).
Proof.
  unfold pixel_events, done_event.
  destruct (pixel i j) as [[[ir ig] ib]|]; cbn [In]; [|tauto].
  intros [H|[H|[H|[H|[H|[H|[]]]]]]]; discriminate H.
Qed.

Lemma done_not_in_progress : ~ In done_event progress_events.
Proof.
  unfold progress_events, done_event.
  change (show_int (image_height - 1)) with "255".
  cbn [In append]. intros [H|[H|[H|[H|[]]]]]; discriminate H.
Qed.

Lemma done_not_in_row i : ~ In done_event (row_events i).
Proof.
  unfold row_events. rewrite in_app_iff, in_flat_map.
  intros [H|(j & _ & H)].
  - exact (done_not_in_progress H).
  - exact (done_not_in_pixel i j H).
Qed.

Lemma done_not_in_header : ~ In done_event header_events.
Proof.
  unfold header_events, done_event. cbn [In].
  intros [H|[H|[H|[H|[H|[]]]]]]; discriminate H.
Qed.

(** The completion message is not written before the loops end. *)
Lemma done_not_in_body : ~ In done_event body_events.
Proof.
  unfold body_events. rewrite in_app_iff, in_flat_map.
  intros [H|(i & _ & H)].
  - exact (done_not_in_header H).
  - exact (done_not_in_row i H).
Qed.

End Diagnostics.

(** Claim C10: the completion message is the last stream operation of the
    program and occurs once; all the rows (the header and the 65536 pixel
    lines) are in the primary stream before it; the exit code is 0. *)
Theorem done_after_all_rows (inp : string) :
  exists pre,
    exec inp = Some (0, pre ++ [done_event]) /\
    done_event
    = Io.Write Io.Clog
        (String Text.cr "Done.                 " ++ String Text.nl "")%string /\
    ~ In done_event pre /\
    cout_lines_of pre
    = header_lines ++ map (fun p => pixel_line (snd p, fst p, 0)) grid /\
    List.length grid = (256 * 256)%nat /\
    (forall i j, 0 <= i < image_height -> 0 <= j < image_width ->
                 output_line pre i j = Some (pixel_line (j, i, 0))) /\
    cout_lines_of (pre ++ [done_event]) = cout_lines_of pre.
Proof.
  exists body_events. fold main_events.
  split; [apply exec_main|]. split; [reflexivity|].
  split; [apply done_not_in_body|].
  split; [apply cout_lines|].
  split; [apply grid_length|].
  assert (E : cout_lines_of main_events = cout_lines_of body_events)
    by (unfold cout_lines_of; now rewrite contents_cout_main).
  split; [|exact E].
  intros i j Hi Hj. rewrite <- (output_line_main i j Hi Hj).
  unfold output_line. now rewrite E.
Qed.

(** Claim C7: what [main] does is the same from any two worlds, whatever
    their pending input and their history: the same exit code and the same
    stream operations, hence the same bytes on the primary stream. *)
Theorem main_deterministic (w1 w2 : Io.world) (inp1 inp2 : string) :
  exists evs,
    main w1 = Some (0, Io.emit w1 evs) /\
    main w2 = Some (0, Io.emit w2 evs) /\
    exec inp1 = Some (0, evs) /\
    exec inp2 = Some (0, evs).
Proof.
  exists main_events.
  split; [apply emits_main|]. split; [apply emits_main|].
  split; apply exec_main.
Qed.

(** Claim C1 (where the code departs from it): at every row the progress
    text carries [image_height - 1] = 255, not the number of scanlines
    remaining at that row; at row 0 the text asked for carries 256. *)
Theorem progress_count_constant (inp : string) :
  exists tr,
    exec inp = Some (0, tr) /\
    tr = header_events ++ flat_map row_events rows ++ [done_event] /\
    (forall i, row_events i
               = progress_events ++ flat_map (pixel_events i) columns) /\
    Io.contents Io.Clog progress_events
    = String Text.cr "Scanlines remaining: 255 " /\
    Io.contents Io.Clog tr
    = (cat (map (fun _ => String Text.cr "Scanlines remaining: 255 ") rows)
       ++ done_text)%string /\
    progress_text_expected 0 = String Text.cr "Scanlines remaining: 256 " /\
    progress_text_expected 2 = String Text.cr "Scanlines remaining: 254 " /\
    Io.contents Io.Clog progress_events <> progress_text_expected 0 /\
    Io.contents Io.Clog progress_events <> progress_text_expected 2.
Proof.
  exists main_events. split; [apply exec_main|].
  split; [unfold main_events, body_events; now rewrite app_assoc|].
  split; [reflexivity|].
  rewrite contents_clog_main, contents_clog_progress, progress_text_255.
  split; [reflexivity|]. split; [reflexivity|].
  split; [vm_compute; reflexivity|]. split; [vm_compute; reflexivity|].
  split; vm_compute; discriminate.
Qed.

(* ------------------------------------------------------------------ *)
(** ** The normalization and the scaling for other dimensions *)

(** With a dimension of one pixel, line 12 divides by the double zero:
    the coordinate is a NaN or an infinity for every index, and converting
    its product with 255.999 to [int] is undefined. *)
Theorem single_pixel_dimension_undefined (k : Z) :
  Double.of_int (1 - 1) = Double.zero /\
  Double.trunc (normalized k 1) = None /\
  scale (normalized k 1) = None.
Proof.
  split; [reflexivity|].
  unfold scale, normalized. change (Double.of_int (1 - 1)) with Double.zero.
  destruct c255_999_nearest as [-> _].
  destruct (Double.of_int k) as [s| s| |s m e]; split; reflexivity.
Qed.

Lemma dim_ok_all dim : 2 <= dim <= 256 -> dim_ok dim = true.
Proof.
  intro H.
  assert (C : forallb dim_ok (zrange 255 2) = true)
    by (vm_compute; reflexivity).
  apply (zrange_forallb _ _ _ C). lia.
Qed.

Lemma walk_ordered dim n :
  forall k prev, walk dim n k prev = true ->
  forall k1 k2, k <= k1 <= k2 -> k2 < k + Z.of_nat n ->
  exists v1 v2, scale (normalized k1 dim) = Some v1 /\
                scale (normalized k2 dim) = Some v2 /\
                prev <= v1 /\ v1 <= v2 /\ v2 <= 255.
Proof.
  induction n as [|n IH]; intros k prev H k1 k2 Hk Hn; [lia|].
  cbn [walk] in H.
  destruct (scale (normalized k dim)) as [v|] eqn:Ev; [|discriminate H].
  apply andb_prop in H as [H Hw]. apply andb_prop in H as [Hp Hv].
  apply Z.leb_le in Hp, Hv.
  destruct (Z.eq_dec k1 k) as [->|Hk1].
  - destruct (Z.eq_dec k2 k) as [->|Hk2].
    + exists v, v. rewrite Ev. repeat split; lia.
    + destruct (IH (k + 1) v Hw k2 k2 ltac:(lia) ltac:(lia))
        as (v2 & v2' & E2 & E2' & Hle & H22 & H255).
      exists v, v2'. rewrite Ev, E2'. repeat split; lia.
  - destruct (IH (k + 1) v Hw k1 k2 ltac:(lia) ltac:(lia))
      as (v1 & v2 & E1 & E2 & Hle & H12 & H255).
    exists v1, v2. rewrite E1, E2. repeat split; lia.
Qed.

Lemma dim_ok_ends dim :
  dim_ok dim = true ->
  scale (normalized 0 dim) = Some 0 /\
  scale (normalized (dim - 1) dim) = Some 255 /\
  walk dim (Z.to_nat dim) 0 0 = true.
Proof.
  unfold dim_ok. intro H.
  destruct (scale (normalized 0 dim)) as [[| |]|]; try discriminate H.
  destruct (scale (normalized (dim - 1) dim)) as [v|]; [|discriminate H].
  destruct (Z.eq_dec v 255) as [->|Hv].
  - now repeat split.
  - exfalso. destruct v as [|p|p]; try discriminate H.
    do 8 (destruct p as [p|p|]; try discriminate H). now apply Hv.
Qed.

(** The formula of lines 12 to 17 for any dimension from 2 to 256, the
    dimension being a variable of the program: every index has an
    intensity in [[0, 255]], the first one 0, the last one 255, and a
    larger index never has a smaller intensity. *)
Theorem intensity_any_dimension (dim k1 k2 : Z) :
  2 <= dim <= 256 -> 0 <= k1 <= k2 -> k2 < dim ->
  exists v1 v2,
    scale (normalized k1 dim) = Some v1 /\
    scale (normalized k2 dim) = Some v2 /\
    0 <= v1 /\ v1 <= v2 /\ v2 <= 255 /\
    scale (normalized 0 dim) = Some 0 /\
    scale (normalized (dim - 1) dim) = Some 255.
Proof.
  intros Hdim Hk Hk2.
  destruct (dim_ok_ends dim (dim_ok_all dim Hdim)) as (H0 & Hlast & Hw).
  destruct (walk_ordered dim _ 0 0 Hw k1 k2 ltac:(lia) ltac:(lia))
    as (v1 & v2 & E1 & E2 & Hle & H12 & H255).
  exists v1, v2. repeat split; assumption.
Qed.

Lemma intensity_any_dimension_witness :
  2 <= 3 <= 256 /\ 0 <= 1 <= 2 /\ 2 < 3 /\
  exists v1 v2,
    scale (normalized 1 3) = Some v1 /\
    scale (normalized 2 3) = Some v2 /\
    0 <= v1 /\ v1 <= v2 /\ v2 <= 255 /\
    scale (normalized 0 3) = Some 0 /\
    scale (normalized (3 - 1) 3) = Some 255.
Proof.
  split; [lia|]. split; [lia|]. split; [lia|].
  apply (intensity_any_dimension 3 1 2); lia.
Defined.

(* ------------------------------------------------------------------ *)
(** ** The trace row by row *)

Section RowByRow.
Import Io Text.

Lemma zrange_split a b lo :
  zrange (a + S b) lo
  = zrange a lo ++ (lo + Z.of_nat a) :: zrange b (lo + Z.of_nat a + 1).
Proof.
  revert lo. induction a as [|a IH]; intro lo.
  - cbn [Nat.add zrange app]. now rewrite Z.add_0_r.
  - cbn [Nat.add zrange app]. rewrite IH.
    replace (lo + 1 + Z.of_nat a) with (lo + Z.of_nat (S a)) by lia.
    reflexivity.
Qed.

Lemma zrange_snoc a lo : zrange (S a) lo = zrange a lo ++ [lo + Z.of_nat a].
Proof.
  replace (S a) with (a + 1)%nat by lia. now rewrite zrange_split.
Qed.

(** The rows above row [i], row [i] and the rows below. *)
Lemma rows_split i :
  0 <= i < 256 ->
  rows = zrange (Z.to_nat i) 0 ++ i :: zrange (Z.to_nat (255 - i)) (i + 1).
Proof.
  intro Hi. unfold rows.
  replace (Z.to_nat (image_height - 0))
    with (Z.to_nat i + S (Z.to_nat (255 - i)))%nat
    by (unfold image_height; lia).
  rewrite zrange_split.
  replace (0 + Z.of_nat (Z.to_nat i)) with i by lia. reflexivity.
Qed.

Lemma contents_cout_rows_of rs :
  (forall i, In i rs -> 0 <= i < 256) ->
  contents Cout (flat_map row_events rs)
  = cat (map (fun p => (pixel_line (snd p, fst p, 0) ++ String nl "")%string)
           (flat_map (fun i => map (pair i) columns) rs)).
Proof.
  intro Hrs. rewrite contents_flat_map.
  rewrite (map_ext_in _
             (fun i => cat (map (fun j => (pixel_line (snd (i, j), fst (i, j), 0)
                                           ++ String nl "")%string) columns)))
    by (intros i Hi; apply contents_cout_row, Hrs, Hi).
  apply (cat_grid pair
           (fun p => (pixel_line (snd p, fst p, 0) ++ String nl "")%string)).
Qed.

(** The lines of the primary stream once the rows [rs] are written. *)
Lemma cout_lines_rows_of rs :
  (forall i, In i rs -> 0 <= i < 256) ->
  cout_lines_of (header_events ++ flat_map row_events rs)
  = header_lines
    ++ map (fun p => pixel_line (snd p, fst p, 0))
         (flat_map (fun i => map (pair i) columns) rs).
Proof.
  intro Hrs. unfold cout_lines_of.
  rewrite contents_app, contents_cout_header, (contents_cout_rows_of rs Hrs).
  rewrite lines_header. unfold header_lines. cbn [app].
  apply (f_equal (fun t => "P3" :: "256 256" :: "255" :: t)).
  rewrite <- (sapp_nil_r (cat _)).
  rewrite (lines_cat (fun p => pixel_line (snd p, fst p, 0))).
  - cbn [lines]. now rewrite app_nil_r.
  - intros [r c] Hin. apply in_flat_map in Hin as (r' & Hr' & Hin).
    apply in_map_iff in Hin as (c' & Heq & Hc'). injection Heq as -> ->.
    cbn [fst snd]. apply pixel_line_no_nl; [now apply Hrs | now apply columns_In].
Qed.

Lemma contents_clog_rows_of rs :
  contents Clog (header_events ++ flat_map row_events rs)
  = cat (map (fun _ => progress_text) rs).
Proof.
  rewrite contents_app, contents_clog_header, contents_flat_map.
  cbn [append]. apply (f_equal cat).
  apply map_ext. intro i. apply contents_clog_row.
Qed.

Lemma count_flush_app s e1 e2 :
  count_flush s (e1 ++ e2) = (count_flush s e1 + count_flush s e2)%nat.
Proof.
  induction e1 as [|[s' t|s'] e1 IH]; cbn [app count_flush]; auto.
  destruct (stream_eqb s s'); cbn [Nat.add]; now rewrite IH.
Qed.

Lemma count_flush_flat_map {A} s (f : A -> list event) c xs :
  (forall x, count_flush s (f x) = c) ->
  count_flush s (flat_map f xs) = (List.length xs * c)%nat.
Proof.
  intro H. induction xs as [|x xs IH]; [reflexivity|].
  cbn [flat_map List.length Nat.mul]. now rewrite count_flush_app, H, IH.
Qed.

Lemma count_flush_pixel s i j : count_flush s (pixel_events i j) = O.
Proof.
  unfold pixel_events. destruct (pixel i j) as [[[ir ig] ib]|]; reflexivity.
Qed.

Lemma count_flush_row s i :
  count_flush s (row_events i)
  = match s with Clog => 1%nat | Cout => O end.
Proof.
  unfold row_events.
  rewrite count_flush_app, (count_flush_flat_map s _ O)
    by (intro j; apply count_flush_pixel).
  rewrite Nat.mul_0_r. destruct s; reflexivity.
Qed.

End RowByRow.

(** When the progress text of row [i] is inserted, the primary stream
    holds the header and the [i * image_width] pixel lines of the rows
    above, and the diagnostic stream [i] progress texts; the 256 pixel
    lines of row [i] come next, ahead of the rest of the trace. *)
Theorem progress_precedes_row (inp : string) (i : Z) :
  0 <= i < image_height ->
  exists tr before after,
    exec inp = Some (0, tr) /\
    tr = before ++ progress_events
           ++ flat_map (pixel_events i) columns ++ after /\
    Z.of_nat (List.length (cout_lines_of before)) = 3 + i * image_width /\
    Io.contents Io.Clog before
    = cat (map (fun _ => progress_text) (zrange (Z.to_nat i) 0)) /\
    cout_lines_of (before ++ progress_events
                     ++ flat_map (pixel_events i) columns)
    = cout_lines_of before ++ map (fun j => pixel_line (j, i, 0)) columns.
Proof.
  unfold image_height, image_width. intro Hi.
  assert (Habove : forall r, In r (zrange (Z.to_nat i) 0) -> 0 <= r < 256)
    by (intros r Hr; apply zrange_In in Hr; lia).
  exists main_events,
    (header_events ++ flat_map row_events (zrange (Z.to_nat i) 0)),
    (flat_map row_events (zrange (Z.to_nat (255 - i)) (i + 1)) ++ [done_event]).
  split; [apply exec_main|]. split.
  - unfold main_events, body_events. rewrite (rows_split i Hi).
    rewrite flat_map_app. cbn [flat_map]. unfold row_events at 2.
    now rewrite <- !app_assoc.
  - split.
    + rewrite (cout_lines_rows_of _ Habove).
      rewrite length_app, length_map, length_grid, zrange_length, columns_length.
      unfold header_lines. cbn [List.length].
      rewrite Nat2Z.inj_add, Nat2Z.inj_mul, Z2Nat.id by lia. reflexivity.
    + split; [apply contents_clog_rows_of|].
      rewrite (cout_lines_rows_of _ Habove).
      replace (progress_events ++ flat_map (pixel_events i) columns)
        with (flat_map row_events [i])
        by (cbn [flat_map]; now rewrite app_nil_r).
      rewrite <- app_assoc, <- flat_map_app.
      rewrite cout_lines_rows_of.
      * rewrite flat_map_app, map_app, <- app_assoc. cbn [flat_map].
        now rewrite app_nil_r, map_map.
      * intros r Hr. apply in_app_iff in Hr as [Hr|[<-|[]]]; [auto | lia].
Qed.

Lemma progress_precedes_row_witness :
  0 <= 2 < image_height /\
  exists tr before after,
    exec "" = Some (0, tr) /\
    tr = before ++ progress_events
           ++ flat_map (pixel_events 2) columns ++ after /\
    Z.of_nat (List.length (cout_lines_of before)) = 3 + 2 * image_width /\
    Io.contents Io.Clog before
    = cat (map (fun _ => progress_text) (zrange (Z.to_nat 2) 0)) /\
    cout_lines_of (before ++ progress_events
                     ++ flat_map (pixel_events 2) columns)
    = cout_lines_of before ++ map (fun j => pixel_line (j, 2, 0)) columns.
Proof.
  split; [in_range|]. apply (progress_precedes_row "" 2). in_range.
Defined.

(** The diagnostic stream is flushed once per row, 256 times in all; the
    primary stream is never flushed by the program. *)
Theorem flush_once_per_row (inp : string) :
  exists tr,
    exec inp = Some (0, tr) /\
    (forall i, count_flush Io.Clog (row_events i) = 1%nat) /\
    Z.of_nat (count_flush Io.Clog tr) = image_height /\
    count_flush Io.Cout tr = O.
Proof.
  exists main_events. split; [apply exec_main|].
  split; [intro i; apply (count_flush_row Io.Clog)|].
  unfold main_events, body_events.
  rewrite !count_flush_app.
  rewrite (count_flush_flat_map Io.Clog row_events 1)
    by (intro i; apply (count_flush_row Io.Clog)).
  rewrite (count_flush_flat_map Io.Cout row_events 0)
    by (intro i; apply (count_flush_row Io.Cout)).
  rewrite rows_length. split; reflexivity.
Qed.

(* ------------------------------------------------------------------ *)
(** ** The shape of the two streams *)

Section Shape.
Import Io Text.
Local Open Scope string_scope.

Lemma unlines_app a b : unlines (a ++ b)%list = unlines a ++ unlines b.
Proof. unfold unlines. now rewrite map_app, cat_app. Qed.

Lemma all_chars_app p a b :
  all_chars p (a ++ b) = all_chars p a && all_chars p b.
Proof.
  induction a as [|c a IH]; cbn [append all_chars]; [reflexivity|].
  now rewrite IH, andb_assoc.
Qed.

Lemma all_chars_cat {A} p (f : A -> string) xs :
  (forall x, In x xs -> all_chars p (f x) = true) ->
  all_chars p (cat (map f xs)) = true.
Proof.
  induction xs as [|x xs IH]; intro H; [reflexivity|].
  cbn [map]. change (cat (f x :: map f xs)) with (f x ++ cat (map f xs)).
  rewrite all_chars_app, H by now left.
  apply IH. intros y Hy. apply H. now right.
Qed.

Lemma show_int_ppm k :
  (0 <= k < 256)%Z -> all_chars ppm_char (show_int k) = true.
Proof.
  intro Hk.
  assert (C : forallb (fun k => all_chars ppm_char (show_int k))
                (zrange 256 0) = true) by (vm_compute; reflexivity).
  apply (zrange_forallb _ _ _ C). lia.
Qed.

Lemma no_nl_cat_const {A} t (xs : list A) :
  no_nl t = true -> no_nl (cat (map (fun _ => t) xs)) = true.
Proof.
  intro H. induction xs as [|x xs IH]; [reflexivity|].
  cbn [map]. change (cat (t :: map (fun _ => t) xs))
    with (t ++ cat (map (fun _ : A => t) xs)).
  now rewrite no_nl_app, H, IH.
Qed.

End Shape.

(** The primary stream is exactly its lines, each one ended by a line
    feed, the last pixel line included: nothing follows the last line
    feed. *)
Theorem cout_is_its_lines (inp : string) :
  exists tr,
    exec inp = Some (0, tr) /\
    Io.contents Io.Cout tr = unlines (cout_lines_of tr).
Proof.
  exists main_events. split; [apply exec_main|].
  rewrite cout_lines_main, unlines_app, contents_cout_main.
  unfold body_events.
  rewrite contents_app, contents_cout_header, contents_cout_rows.
  unfold unlines at 2. rewrite map_map.
  apply (f_equal (fun t => append t _)). reflexivity.
Qed.

(** The primary stream holds no other character than the [P] of the magic
    number, decimal digits, spaces and line feeds: no diagnostic text and
    no carriage return reaches it. *)
Theorem cout_characters (inp : string) :
  exists tr,
    exec inp = Some (0, tr) /\
    all_chars ppm_char (Io.contents Io.Cout tr) = true /\
    ppm_char Text.cr = false.
Proof.
  exists main_events. split; [apply exec_main|]. split; [|reflexivity].
  rewrite contents_cout_main. unfold body_events.
  rewrite contents_app, contents_cout_header, contents_cout_rows.
  rewrite all_chars_app. apply andb_true_intro. split; [reflexivity|].
  apply all_chars_cat. intros [i j] Hin. apply grid_In in Hin as [Hi Hj].
  cbn [fst snd pixel_line].
  rewrite !all_chars_app, !show_int_ppm by lia. reflexivity.
Qed.

(** The diagnostic stream is one line: its only line feed is its last
    character, written by the completion message; the progress texts,
    which start with a carriage return, hold none. *)
Theorem clog_single_line (inp : string) :
  exists tr body,
    exec inp = Some (0, tr) /\
    Io.contents Io.Clog tr = (body ++ String Text.nl "")%string /\
    Text.no_nl body = true /\
    Text.lines (Io.contents Io.Clog tr) = [body].
Proof.
  exists main_events,
    (cat (map (fun _ => progress_text) rows)
     ++ String Text.cr "Done.                 ")%string.
  split; [apply exec_main|].
  assert (Hb : Text.no_nl
                 (cat (map (fun _ => progress_text) rows)
                  ++ String Text.cr "Done.                 ") = true).
  { rewrite no_nl_app, no_nl_cat_const by reflexivity. reflexivity. }
  assert (He : Io.contents Io.Clog main_events
               = ((cat (map (fun _ => progress_text) rows)
                   ++ String Text.cr "Done.                 ")
                  ++ String Text.nl "")%string).
  { rewrite contents_clog_main. unfold done_text.
    now rewrite sapp_assoc. }
  split; [exact He|]. split; [exact Hb|].
  rewrite He. now rewrite (lines_line _ _ Hb).
Qed.
